(** * scraper.py: list a page, fetch the matching links, write them to disk

    A shallow embedding of [src/scraper.py].  The program talks to three
    things it does not own: the network (through [httpx]), an HTML parser
    ([BeautifulSoup] with ["html.parser"]) and the file system.  They are the
    fields of the record [env]; the functions of the script take an [env]
    and are written in a small state-and-exception monad, so that what the
    script prints, what it writes and what it lets escape can all be read off
    the result of a run. *)

From Stdlib Require Import ZArith Ascii String List.
From Stdlib Require Import Strings.Byte.
From Stdlib Require Import Numbers.DecimalString.
From stdpp Require Import base option list strings gmap.

Local Open Scope string_scope.
Local Open Scope list_scope.

(** ** Python values *)

(** [bytes] objects. *)
Abbreviation bytes := (list Byte.byte).

(** The newline of the f-strings. *)
Definition nl : string := String (ascii_of_nat 10) EmptyString.

(** [str(n)] for a Python [int]. *)
Definition str_of_int (n : Z) : string := NilEmpty.string_of_int (Z.to_int n).

(** Truthiness, as [if x:] and [if not x:] test it. *)
Definition truthy_str (s : string) : bool :=
  match s with EmptyString => false | String _ _ => true end.

Definition truthy_bytes (b : bytes) : bool :=
  match b with [] => false | _ :: _ => true end.

(** [truthy_opt] is the test on a value that may be [None]. *)
Definition truthy_opt {A} (truthy : A -> bool) (o : option A) : bool :=
  match o with None => false | Some a => truthy a end.

(** [s.startswith(sub)]. *)
Fixpoint startswith (s sub : string) {struct sub} : bool :=
  match sub, s with
  | EmptyString, _ => true
  | String _ _, EmptyString => false
  | String a sub', String b s' => if Ascii.eqb a b then startswith s' sub' else false
  end.

(** [sub in s] on strings: [s] starts with [sub] at some offset. *)
Fixpoint str_in (sub s : string) : bool :=
  startswith s sub ||
  match s with
  | EmptyString => false
  | String _ s' => str_in sub s'
  end.

(** What "the string [s] contains [sub]" means, independently of the search. *)
Definition occurs_in (sub s : string) : Prop :=
  exists l r, s = l +:+ sub +:+ r.

(** ** String helpers of the standard library models *)

(** [s.partition(c)]: the text before the first [c] and the text after it,
    or [None] when [c] does not occur ([s.find(c) < 0]). *)
Fixpoint partition_at (c : ascii) (s : string) : option (string * string) :=
  match s with
  | EmptyString => None
  | String x s' =>
      if Ascii.eqb x c then Some (EmptyString, s')
      else match partition_at c s' with
           | Some (l, r) => Some (String x l, r)
           | None => None
           end
  end.

(** [s.split(c)]. *)
Fixpoint split_on (c : ascii) (s : string) : list string :=
  match s with
  | EmptyString => [EmptyString]
  | String x s' =>
      if Ascii.eqb x c then EmptyString :: split_on c s'
      else match split_on c s' with
           | [] => [String x EmptyString]
           | w :: ws => String x w :: ws
           end
  end.

(** [sep.join(l)]. *)
Fixpoint join (sep : string) (l : list string) : string :=
  match l with
  | [] => EmptyString
  | [w] => w
  | w :: ws => w +:+ sep +:+ join sep ws
  end.

Fixpoint str_filter (keep : ascii -> bool) (s : string) : string :=
  match s with
  | EmptyString => EmptyString
  | String x s' => if keep x then String x (str_filter keep s') else str_filter keep s'
  end.

Fixpoint str_forall (p : ascii -> bool) (s : string) : bool :=
  match s with
  | EmptyString => true
  | String x s' => p x && str_forall p s'
  end.

Fixpoint str_map (f : ascii -> ascii) (s : string) : string :=
  match s with
  | EmptyString => EmptyString
  | String x s' => String (f x) (str_map f s')
  end.

Fixpoint lstrip (drop : ascii -> bool) (s : string) : string :=
  match s with
  | EmptyString => EmptyString
  | String x s' => if drop x then lstrip drop s' else s
  end.

Definition code (c : ascii) : nat := nat_of_ascii c.

Definition is_upper (c : ascii) : bool := (65 <=? code c)%nat && (code c <=? 90)%nat.
Definition is_lower (c : ascii) : bool := (97 <=? code c)%nat && (code c <=? 122)%nat.
Definition is_digit (c : ascii) : bool := (48 <=? code c)%nat && (code c <=? 57)%nat.
Definition is_ascii_alpha (c : ascii) : bool := is_upper c || is_lower c.

Definition lower_char (c : ascii) : ascii :=
  if is_upper c then ascii_of_nat (code c + 32) else c.

(** [s.lower()], on the ASCII letters a scheme is made of. *)
Definition lower (s : string) : string := str_map lower_char s.

(** ** [pathlib]: pure POSIX paths *)

(** A path is its root (nothing, one slash, or exactly two) and its
    components; empty components and single dots vanish when a string is
    parsed. *)
Record Path := { root : string; parts : list string }.

Definition keep_part (c : string) : bool :=
  negb (String.eqb c "") && negb (String.eqb c ".").

Definition Path_of (s : string) : Path :=
  {| root := if startswith s "//" && negb (startswith s "///") then "//"
             else if startswith s "/" then "/" else "";
     parts := List.filter keep_part (split_on "/" s) |}.

(** [path.name]: the final component, [''] when there is none. *)
Definition name (p : Path) : string := List.last (parts p) "".

(** [str(path)], which is also [path.as_posix()] here. *)
Definition Path_str (p : Path) : string :=
  match root p, parts p with
  | EmptyString, [] => "."
  | r, ps => r +:+ join "/" ps
  end.

(** [path.joinpath(other)]: a rooted argument replaces the path. *)
Definition joinpath (p : Path) (other : string) : Path :=
  let o := Path_of other in
  if truthy_str (root o) then o
  else {| root := root p; parts := parts p ++ parts o |}.

(** ** [urllib.parse]: [urlparse] and [urlunparse]

    The six-field split of CPython's [urllib.parse], for [str] input.  The
    checks that make [urlsplit] raise [ValueError] (unbalanced IPv6 brackets,
    a netloc that changes under NFKC normalisation) are left out: the model
    covers the URLs that pass them. *)
Record ParseResult := {
  scheme : string; netloc : string; path : string;
  params : string; query : string; fragment : string }.

Definition uses_params : list string :=
  [""; "ftp"; "hdl"; "prospero"; "http"; "imap"; "https"; "shttp"; "rtsp";
   "rtspu"; "sip"; "sips"; "mms"; "sftp"; "tel"].

Definition uses_netloc : list string :=
  [""; "ftp"; "http"; "gopher"; "nntp"; "telnet"; "imap"; "wais"; "file";
   "mms"; "https"; "shttp"; "snews"; "prospero"; "rtsp"; "rtsps"; "rtspu";
   "rsync"; "svn"; "svn+ssh"; "sftp"; "nfs"; "git"; "git+ssh"; "ws"; "wss";
   "itms-services"].

Definition mem_str (x : string) (l : list string) : bool :=
  existsb (String.eqb x) l.

Definition is_c0_or_space (c : ascii) : bool := (code c <=? 32)%nat.

Definition is_unsafe_byte (c : ascii) : bool :=
  (code c =? 9)%nat || (code c =? 10)%nat || (code c =? 13)%nat.

Definition is_scheme_char (c : ascii) : bool :=
  is_ascii_alpha c || is_digit c ||
  (code c =? 43)%nat || (code c =? 45)%nat || (code c =? 46)%nat.

Definition is_netloc_delim (c : ascii) : bool :=
  Ascii.eqb c "/" || Ascii.eqb c "?" || Ascii.eqb c "#".

(** The text before the first character [stop] accepts, and the text from
    that character on. *)
Fixpoint span_until (stop : ascii -> bool) (s : string) : string * string :=
  match s with
  | EmptyString => (EmptyString, EmptyString)
  | String x s' =>
      if stop x then (EmptyString, s)
      else let (l, r) := span_until stop s' in (String x l, r)
  end.

(** The text before the last [c], and the text after it. *)
Fixpoint rpartition_at (c : ascii) (s : string) : option (string * string) :=
  match s with
  | EmptyString => None
  | String x s' =>
      match rpartition_at c s' with
      | Some (l, r) => Some (String x l, r)
      | None => if Ascii.eqb x c then Some (EmptyString, s') else None
      end
  end.

(** [url[:i].lower(), url[i+1:]] when the text before the first colon is a
    scheme; otherwise no scheme and the URL as it is. *)
Definition split_scheme (url : string) : string * string :=
  match partition_at ":" url with
  | Some (String c0 _ as pre, post) =>
      if is_ascii_alpha c0 && str_forall is_scheme_char pre
      then (lower pre, post) else (EmptyString, url)
  | _ => (EmptyString, url)
  end.

(** [_splitnetloc(url, 2)], taken only when the URL starts with two slashes. *)
Definition split_netloc (url : string) : string * string :=
  match url with
  | String "/" (String "/" rest) => span_until is_netloc_delim rest
  | _ => (EmptyString, url)
  end.

(** [url.split(c, 1)] guarded by [c in url]. *)
Definition split_off (c : ascii) (url : string) : string * string :=
  match partition_at c url with
  | Some (l, r) => (l, r)
  | None => (url, EmptyString)
  end.

Definition urlsplit (url : string) : string * string * string * string * string :=
  let url := lstrip is_c0_or_space url in
  let url := str_filter (fun c => negb (is_unsafe_byte c)) url in
  let '(scheme, url) := split_scheme url in
  let '(netloc, url) := split_netloc url in
  let '(url, fragment) := split_off "#" url in
  let '(url, query) := split_off "?" url in
  (scheme, netloc, url, query, fragment).

(** [_splitparams(url)] guarded by [';' in url]: the parameters of the last
    path segment. *)
Definition splitparams (url : string) : string * string :=
  match rpartition_at "/" url with
  | Some (dir, seg) =>
      match partition_at ";" seg with
      | Some (l, r) => (dir +:+ "/" +:+ l, r)
      | None => (url, EmptyString)
      end
  | None => split_off ";" url
  end.

Definition urlparse (url : string) : ParseResult :=
  let '(scheme, netloc, url, query, fragment) := urlsplit url in
  let '(url, params) :=
    if mem_str scheme uses_params then splitparams url else (url, EmptyString) in
  {| scheme := scheme; netloc := netloc; path := url;
     params := params; query := query; fragment := fragment |}.

Definition urlunsplit (scheme netloc url query fragment : string) : string :=
  let url :=
    if truthy_str netloc
       || (truthy_str scheme && mem_str scheme uses_netloc
           && negb (startswith url "//"))
    then "//" +:+ netloc +:+
         (if truthy_str url && negb (startswith url "/") then "/" +:+ url else url)
    else url in
  let url := if truthy_str scheme then scheme +:+ ":" +:+ url else url in
  let url := if truthy_str query then url +:+ "?" +:+ query else url in
  if truthy_str fragment then url +:+ "#" +:+ fragment else url.

Definition urlunparse (scheme netloc url params query fragment : string) : string :=
  let url := if truthy_str params then url +:+ ";" +:+ params else url in
  urlunsplit scheme netloc url query fragment.

(** ** [httpx]: one GET, with or without redirect following

    The client as the script uses it: [httpx.get(url)] and
    [httpx.get(url, follow_redirects=True, timeout=10)].  A URL the client
    refuses before it sends anything ([httpx.InvalidURL], which is not an
    [HTTPError]) is outside the model; a timeout is one of the ways of
    getting no answer. *)

(** What the server behind a URL sends back.  [location] is the target of
    the [Location] header, already resolved against the request URL;
    [text] is the body decoded to [str]. *)
Record reply := {
  status_code : Z; reason_phrase : string; location : option string;
  content : bytes; text : string }.

(** One request either gets no reply at all (connection refused, name not
    resolved, timeout: every [httpx.TransportError]) or a reply. *)
Inductive exchange :=
  | NoAnswer (detail : string)
  | Answer (r : reply).

(** A response remembers the request that produced it. *)
Record Response := { response_reply : reply; response_url : string }.

(** The subclasses of [httpx.HTTPError] a GET can end in, each carrying
    [str(e)] and the URL of [e.request]. *)
Inductive HTTPError_class := TransportError | TooManyRedirects | HTTPStatusError.

Record HTTPError := {
  error_class : HTTPError_class; message : string; request_url : string }.

Definition max_redirects : nat := 20.

Definition is_redirect_code (s : Z) : bool :=
  (s =? 301)%Z || (s =? 302)%Z || (s =? 303)%Z || (s =? 307)%Z || (s =? 308)%Z.

(** The next URL when [response.has_redirect_location]. *)
Definition redirect_target (r : reply) : option string :=
  if is_redirect_code (status_code r) then location r else None.

Definition is_success (r : reply) : bool :=
  (200 <=? status_code r)%Z && (status_code r <=? 299)%Z.

(** The client's redirect loop: [budget] requests may still be sent; the
    error names the request it was raised for. *)
Fixpoint send_handling_redirects (server : string -> exchange) (budget : nat)
    (follow_redirects : bool) (url : string) : HTTPError + Response :=
  match budget with
  | O => inl {| error_class := TooManyRedirects;
                message := "Exceeded maximum allowed redirects.";
                request_url := url |}
  | S budget' =>
      match server url with
      | NoAnswer detail =>
          inl {| error_class := TransportError; message := detail;
                 request_url := url |}
      | Answer r =>
          match redirect_target r with
          | Some next =>
              if follow_redirects
              then send_handling_redirects server budget' follow_redirects next
              else inr {| response_reply := r; response_url := url |}
          | None => inr {| response_reply := r; response_url := url |}
          end
      end
  end.

Definition httpx_get (server : string -> exchange) (url : string)
    (follow_redirects : bool) : HTTPError + Response :=
  send_handling_redirects server (S max_redirects) follow_redirects url.

Definition error_type (status : Z) : string :=
  let c := (status / 100)%Z in
  if (c =? 1)%Z then "Informational response"
  else if (c =? 3)%Z then "Redirect response"
  else if (c =? 4)%Z then "Client error"
  else if (c =? 5)%Z then "Server error"
  else "Invalid status code".

Definition status_error (r : Response) : HTTPError :=
  let rp := response_reply r in
  {| error_class := HTTPStatusError;
     message := error_type (status_code rp) +:+ " '" +:+ str_of_int (status_code rp)
                +:+ " " +:+ reason_phrase rp +:+ "' for url '" +:+ response_url r
                +:+ "'" +:+ nl +:+ "For more information check: "
                +:+ "https://developer.mozilla.org/en-US/docs/Web/HTTP/Status/"
                +:+ str_of_int (status_code rp);
     request_url := response_url r |}.

(** [r.raise_for_status()]. *)
Definition raise_for_status (r : Response) : HTTPError + unit :=
  if is_success (response_reply r) then inr tt else inl (status_error r).

(** [repr(url)] of an [httpx.URL]. *)
Definition URL_repr (u : string) : string := "URL('" +:+ u +:+ "')".

(** ** [bs4]: the parsed document *)

#[warnings="-register-all"]
Inductive node :=
  | Tag (tag_name : string) (attrs : gmap string string) (children : list node)
  | NavigableString (s : string).

(** [tag.descendants]: every node below [tag], in document order. *)
Fixpoint descendants (n : node) : list node :=
  match n with
  | Tag _ _ cs => flat_map (fun c => c :: descendants c) cs
  | NavigableString _ => []
  end.

Definition is_tag_named (nm : string) (n : node) : bool :=
  match n with
  | Tag t _ _ => String.eqb t nm
  | NavigableString _ => false
  end.

(** [soup.find_all(nm)]. *)
Definition find_all (nm : string) (soup : node) : list node :=
  List.filter (is_tag_named nm) (descendants soup).

(** [node.get(key)]. *)
Definition get (n : node) (key : string) : option string :=
  match n with
  | Tag _ a _ => a !! key
  | NavigableString _ => None
  end.

(** ** The world of a run: files on disk and what was printed *)

Record world := { files : gmap string bytes; stdout : list string }.

(** The exceptions the script can meet. [ExOS] is any [OSError] that is not
    a [FileExistsError]; [IOError] is Python's alias of [OSError]. *)
Inductive exn :=
  | ExHTTP (e : HTTPError)
  | ExFileExists (msg : string)
  | ExOS (msg : string).

Inductive outcome (A : Type) :=
  | Return (a : A)
  | Raise (e : exn).
Arguments Return {A} a.
Arguments Raise {A} e.

(** A statement of the script: it runs in a world and either returns or
    raises, leaving a world behind. *)
Definition M (A : Type) : Type := world -> outcome A * world.

#[global] Instance M_ret : MRet M := fun A a w => (Return a, w).

#[global] Instance M_bind : MBind M := fun A B k c w =>
  match c w with
  | (Return a, w') => k a w'
  | (Raise e, w') => (Raise e, w')
  end.

(** A library call whose only effect is that it may raise [HTTPError]. *)
Definition lift_http {A} (r : HTTPError + A) : M A := fun w =>
  match r with
  | inl e => (Raise (ExHTTP e), w)
  | inr a => (Return a, w)
  end.

(** [print(s)]. *)
Definition print (s : string) : M unit := fun w =>
  (Return tt, {| files := files w; stdout := stdout w ++ [s] |}).

(** [try: body except ...: handler]: [handler e] is [None] when no [except]
    clause matches [e], and the exception goes on. *)
Definition try_except {A} (body : M A) (handler : exn -> option (M A)) : M A :=
  fun w =>
    match body w with
    | (Return a, w') => (Return a, w')
    | (Raise e, w') =>
        match handler e with
        | Some h => h w'
        | None => (Raise e, w')
        end
    end.

(** [for x in xs: acc = body(x, acc)]. *)
Fixpoint for_each {A S} (xs : list A) (body : A -> S -> M S) (acc : S) : M S :=
  match xs with
  | [] => mret acc
  | x :: xs' => acc' ← body x acc; for_each xs' body acc'
  end.

(** How the file system answers an attempt to open a path for binary
    writing and write [content] to it. *)
Inductive io_verdict :=
  | IoOk
  | OpenFails (msg : string)
  | WriteFails (written : nat) (msg : string).

Inductive mkdir_verdict :=
  | MkdirOk
  | MkdirExists (msg : string)
  | MkdirFails (msg : string).

(** Everything outside the script. *)
Record env := {
  server : string -> exchange;
  (** [BeautifulSoup(page, "html.parser")] *)
  html_parser : string -> node;
  (** the verdict on writing [content] to [path], given the files there are *)
  disk : gmap string bytes -> string -> bytes -> io_verdict;
  (** the verdict on [path.mkdir(parents=True, exist_ok=False)] *)
  mkdir_verdict_of : Path -> mkdir_verdict;
  (** [str] of the difference of the two [time.perf_counter()] readings *)
  elapsed : string }.

(** [with open(path, "wb") as out_file: out_file.write(content)].  Opening
    truncates, so a write that fails half-way leaves what was written. *)
Definition open_wb_write (E : env) (path : string) (content : bytes) : M unit :=
  fun w =>
    match disk E (files w) path content with
    | IoOk =>
        (Return tt, {| files := <[path := content]> (files w); stdout := stdout w |})
    | OpenFails msg => (Raise (ExOS msg), w)
    | WriteFails written msg =>
        (Raise (ExOS msg),
         {| files := <[path := take written content]> (files w); stdout := stdout w |})
    end.

Definition mkdir (E : env) (p : Path) : M unit := fun w =>
  match mkdir_verdict_of E p with
  | MkdirOk => (Return tt, w)
  | MkdirExists msg => (Raise (ExFileExists msg), w)
  | MkdirFails msg => (Raise (ExOS msg), w)
  end.

(** ** The script *)

(** Lines 21-23: the prefix [assemble_links] works with. *)
Definition effective_prefix (url : string) (prefix : option string) : string :=
  if negb (truthy_opt truthy_str prefix) then
    let url_parts := urlparse url in
    urlunparse (scheme url_parts) (netloc url_parts) "" "" "" ""
  else default "" prefix.

(** The comprehension of lines 26-28 for one node. *)
Definition link_of (prefix : string) (n : node) : option string :=
  if truthy_opt truthy_str (get n "href")
  then (fun href => prefix +:+ href) <$> get n "href" else None.

Definition assemble_links (E : env) (url contains : string)
    (prefix : option string) : M (list string) :=
  let prefix := effective_prefix url prefix in
  r ← lift_http (httpx_get (server E) url false);
  let page := text (response_reply r) in
  let soup := html_parser E page in
  let links := omap (link_of prefix) (find_all "a" soup) in
  mret (List.filter (fun i => str_in contains i) links).

Definition download_file (E : env) (url : string) : M (option bytes) :=
  try_except
    (r ← lift_http (httpx_get (server E) url true);
     _ ← lift_http (raise_for_status r);
     mret (Some (content (response_reply r))))
    (fun e =>
       match e with
       | ExHTTP e =>
           Some (_ ← print ("Error while requesting " +:+ URL_repr (request_url e)
                            +:+ "." +:+ nl +:+ message e);
                 mret None)
       | _ => None
       end).

Definition write_file (E : env) (content : bytes) (local_path : Path) : M string :=
  try_except
    (_ ← open_wb_write E (Path_str local_path) content;
     mret ("Completed write to: " +:+ Path_str local_path))
    (fun e =>
       match e with
       | ExOS msg | ExFileExists msg =>
           Some (_ ← print ("Cannot write to file: " +:+ msg);
                 mret ("Failed to write to: " +:+ Path_str local_path))
       | ExHTTP _ => None
       end).

(** The body of the loop of lines 88-93, from one value of [fcount] to the
    next. *)
Definition fetch_and_store (E : env) (out_dir : Path) (item : string * string)
    (fcount : Z) : M Z :=
  let '(link, fname) := item in
  dl_bytes ← download_file E link;
  if truthy_opt truthy_bytes dl_bytes then
    let out_path := joinpath out_dir fname in
    status ← write_file E (default [] dl_bytes) out_path;
    _ ← print status;
    mret (fcount + 1)%Z
  else mret fcount.

Definition get_link_data (E : env) (url contains : string) (out_dir : Path)
    : M (Z * Z) :=
  links ← assemble_links E url contains None;
  let fnames := map (fun i => name (Path_of i)) links in
  fcount ← for_each (zip links fnames) (fetch_and_store E out_dir) 0%Z;
  mret (fcount, Z.of_nat (length links)).

Definition main (E : env) (downloader : string -> string -> Path -> M (Z * Z))
    (url contains : string) (out_dir : Path) : M unit :=
  _ ← try_except (mkdir E out_dir)
        (fun e =>
           match e with
           | ExFileExists _ =>
               Some (print ("Output directory (" +:+ Path_str out_dir
                            +:+ ") already exists."))
           | _ => None
           end);
  '(count, total) ← downloader url contains out_dir;
  _ ← print (nl +:+ str_of_int count +:+ " downloads in " +:+ elapsed E +:+ " seconds.");
  print (nl +:+ str_of_int (total - count) +:+ " downloads failed.").

(** ** Notions the properties are stated with *)

(** The value a download of [url] comes back with: the body of a 2xx reply,
    [None] for anything else. *)
Definition fetched (E : env) (url : string) : option bytes :=
  match httpx_get (server E) url true with
  | inr r =>
      if is_success (response_reply r) then Some (content (response_reply r))
      else None
  | inl _ => None
  end.

(** The error a download of [url] ends in, if it does. *)
Definition fetch_error (E : env) (url : string) : option HTTPError :=
  match httpx_get (server E) url true with
  | inr r => if is_success (response_reply r) then None else Some (status_error r)
  | inl e => Some e
  end.

(** The line [download_file] prints for an error. *)
Definition diagnostic (e : HTTPError) : string :=
  "Error while requesting " +:+ URL_repr (request_url e) +:+ "." +:+ nl +:+ message e.

(** The number of links whose download comes back non-empty. *)
Definition fetch_count (E : env) (links : list string) : Z :=
  Z.of_nat (length (List.filter
    (fun link => truthy_opt truthy_bytes (fetched E link)) links)).

(** The status lines of the writer, as they appear on standard output. *)
Definition is_completed (line : string) : bool :=
  startswith line "Completed write to: ".

Definition is_failed_write (line : string) : bool :=
  startswith line "Failed to write to: ".

Definition lines_where (p : string -> bool) (out : list string) : Z :=
  Z.of_nat (length (List.filter p out)).

(** [kept P l l']: [l'] is [l] with exactly the elements outside [P] left
    out; order and repetitions are those of [l]. *)
Inductive kept {A} (P : A -> Prop) : list A -> list A -> Prop :=
  | kept_nil : kept P [] []
  | kept_take x l l' : P x -> kept P l l' -> kept P (x :: l) (x :: l')
  | kept_skip x l l' : ~ P x -> kept P l l' -> kept P (x :: l) l'.

(** The [href] of an anchor element that has one and has it non-empty. *)
Definition anchor_href (n : node) : option string :=
  match n with
  | Tag t a _ =>
      if decide (t = "a") then
        match a !! "href" with
        | Some h => if decide (h = "") then None else Some h
        | None => None
        end
      else None
  | NavigableString _ => None
  end.

(** The hrefs of the anchors below [n], read off the tree top to bottom,
    left to right. *)
Fixpoint anchor_hrefs (n : node) : list string :=
  match n with
  | Tag _ _ cs =>
      flat_map (fun c => option_list (anchor_href c) ++ anchor_hrefs c) cs
  | NavigableString _ => []
  end.

(** The links the collector is said to return for a page. *)
Definition links_on_page (E : env) (page prefix : string) : list string :=
  map (fun h => prefix +:+ h) (anchor_hrefs (html_parser E page)).






(** ** A sample site

    A listing with three anchors, the files behind two of them, a link that
    has moved to a page that is gone, an empty file, and a disk that refuses
    one of the paths. *)
Definition listing_url : string := "http://files.test/data/index.html".

Definition listing_page : string :=
  "<a href='/a/cat_1.csv'>one</a><a>no target</a><a href='/a/dog_1.csv'>two</a><a href='/a/cat_2.csv'>three</a>".

Definition listing_soup : node :=
  Tag "[document]" ∅
    [ Tag "a" {[ "href" := "/a/cat_1.csv" ]} [NavigableString "one"];
      Tag "a" ∅ [NavigableString "no target"];
      Tag "a" {[ "href" := "/a/dog_1.csv" ]} [NavigableString "two"];
      Tag "a" {[ "href" := "/a/cat_2.csv" ]} [NavigableString "three"] ].

(** A 200 reply whose body is the ASCII text [txt]. *)
Definition ok_reply (txt : string) : reply :=
  {| status_code := 200; reason_phrase := "OK"; location := None;
     content := list_byte_of_string txt; text := txt |}.

Definition sample_server (url : string) : exchange :=
  if String.eqb url listing_url then Answer (ok_reply listing_page)
  else if String.eqb url "http://files.test/a/cat_1.csv"
  then Answer (ok_reply "1,2")
  else if String.eqb url "http://files.test/a/cat_2.csv"
  then Answer (ok_reply "3")
  else if String.eqb url "http://files.test/a/empty.csv"
  then Answer (ok_reply "")
  else if String.eqb url "http://files.test/old.csv"
  then Answer {| status_code := 302; reason_phrase := "Found";
                 location := Some "http://files.test/new.csv";
                 content := []; text := "" |}
  else if String.eqb url "http://files.test/new.csv"
  then Answer {| status_code := 404; reason_phrase := "Not Found";
                 location := None; content := []; text := "" |}
  else NoAnswer "[Errno 111] Connection refused".

Definition sample_env : env :=
  {| server := sample_server;
     html_parser := fun page =>
       if String.eqb page listing_page then listing_soup else Tag "[document]" ∅ [];
     disk := fun _ path _ =>
       if String.eqb path "out/cat_1.csv"
       then OpenFails "[Errno 13] Permission denied: 'out/cat_1.csv'"
       else IoOk;
     mkdir_verdict_of := fun _ => MkdirExists "[Errno 17] File exists: 'out'";
     elapsed := "0.25" |}.

Definition empty_world : world := {| files := ∅; stdout := [] |}.

(** ** The module as a whole *)

(** Lines 131-137: the constants at the foot of the module. *)
Definition url_prefix : string :=
  "https://web.archive.org/web/20171017231511/http://math.nyu.edu/student_resources/wwiki/index.php/".

Definition url_gfd_cat : string := url_prefix +:+ "Category:Geophysical_Fluid_Dynamics".

Definition adv_calc_cat : string := url_prefix +:+ "Category:Advanced_Calculus".

(** The module run from top to bottom.  [argv] holds the three positional
    arguments when the module is the script (what [argparse] makes of the
    command line is not modelled: they are taken as read) and is [None] when
    the module is imported.  The [__main__] block of lines 115-128 comes
    first; the listing of line 135 is requested after it, in either case.
    The value is [gfd_links]. *)
Definition run_module (E : env) (argv : option (string * string * string))
    : M (list string) :=
  _ ← match argv with
      | Some (url, contains, out_directory) =>
          main E (get_link_data E) url contains (Path_of out_directory)
      | None => mret tt
      end;
  assemble_links E url_gfd_cat "_Problem_" None.

(** The path a link is stored at (lines 86 and 91). *)
Definition out_path_of (out_dir : Path) (link : string) : Path :=
  joinpath out_dir (name (Path_of link)).

(** No slash in a string. *)
Definition no_slash (s : string) : bool :=
  str_forall (fun c => negb (Ascii.eqb c "/")) s.

(** ** More sample sites *)

(** A mirror that serves its listing with an error status, two files with
    the same name in different directories, a link that has moved to one of
    them, a disk that takes everything and an output directory that cannot
    be made. *)
Definition mirror_server (url : string) : exchange :=
  if String.eqb url "http://mirror.test/list"
  then Answer {| status_code := 404; reason_phrase := "Not Found";
                 location := None; content := list_byte_of_string listing_page;
                 text := listing_page |}
  else if String.eqb url "http://mirror.test/a/x.csv" then Answer (ok_reply "A")
  else if String.eqb url "http://mirror.test/b/x.csv" then Answer (ok_reply "B")
  else if String.eqb url "http://mirror.test/moved.csv"
  then Answer {| status_code := 301; reason_phrase := "Moved Permanently";
                 location := Some "http://mirror.test/b/x.csv";
                 content := []; text := "" |}
  else NoAnswer "[Errno -2] Name or service not known".

Definition mirror_env : env :=
  {| server := mirror_server;
     html_parser := html_parser sample_env;
     disk := fun _ _ _ => IoOk;
     mkdir_verdict_of := fun _ => MkdirFails "[Errno 13] Permission denied: 'out'";
     elapsed := "0.5" |}.

(** The sample site with an output directory that is not there yet. *)
Definition fresh_dir_env : env :=
  {| server := server sample_env;
     html_parser := html_parser sample_env;
     disk := disk sample_env;
     mkdir_verdict_of := fun _ => MkdirOk;
     elapsed := elapsed sample_env |}.

(** The archive answering for the category page of line 133. *)
Definition archive_page : string :=
  "<a href='/web/20171017231511/http://math.nyu.edu/wwiki/GFD_Problem_1'>1</a><a href='/web/20171017231511/http://math.nyu.edu/wwiki/Main_Page'>home</a>".

Definition archive_soup : node :=
  Tag "[document]" ∅
    [ Tag "a" {[ "href" := "/web/20171017231511/http://math.nyu.edu/wwiki/GFD_Problem_1" ]}
        [NavigableString "1"];
      Tag "a" {[ "href" := "/web/20171017231511/http://math.nyu.edu/wwiki/Main_Page" ]}
        [NavigableString "home"] ].

Definition archive_env : env :=
  {| server := fun url =>
       if String.eqb url url_gfd_cat then Answer (ok_reply archive_page)
       else server sample_env url;
     html_parser := fun page =>
       if String.eqb page archive_page then archive_soup
       else html_parser sample_env page;
     disk := disk sample_env;
     mkdir_verdict_of := mkdir_verdict_of sample_env;
     elapsed := elapsed sample_env |}.

(** A site whose every page sends the client back to where it is. *)
Definition loop_env : env :=
  {| server := fun url =>
       Answer {| status_code := 302; reason_phrase := "Found";
                 location := Some url; content := []; text := "" |};
     html_parser := html_parser sample_env;
     disk := disk sample_env;
     mkdir_verdict_of := mkdir_verdict_of sample_env;
     elapsed := elapsed sample_env |}.

(** * Properties *)

(** ** Strings *)

Lemma append_String a (s r : string) : String a s +:+ r = String a (s +:+ r).
Proof. reflexivity. Qed.


Lemma string_app_assoc (a b c : string) : (a +:+ b) +:+ c = a +:+ (b +:+ c).
Proof.
  induction a as [|x a IH]; [done|].
  by rewrite !append_String, IH.
Qed.

Lemma string_app_nil_r (a : string) : a +:+ "" = a.
Proof.
  induction a as [|x a IH]; [done|].
  by rewrite append_String, IH.
Qed.

Lemma startswith_spec s sub :
  startswith s sub = true <-> exists r, s = sub +:+ r.
Proof.
  revert s; induction sub as [|a sub IH]; intros s; simpl.
  - split; [intros _; by exists s | done].
  - destruct s as [|b s].
    + split; [done | intros [r Hr]; discriminate].
    + destruct (Ascii.eqb_spec a b) as [->|Hne].
      * rewrite IH. split; intros [r Hr]; exists r.
        -- by rewrite append_String, <- Hr.
        -- rewrite append_String in Hr. congruence.
      * split; [done | intros [r Hr]].
        rewrite append_String in Hr. congruence.
Qed.

Lemma str_in_spec sub s : str_in sub s = true <-> occurs_in sub s.
Proof.
  induction s as [|b s IH]; simpl.
  - rewrite orb_false_r, startswith_spec. split.
    + intros [r Hr]. by exists "", r.
    + intros ([|c l] & r & Hr); [by exists r | discriminate].
  - rewrite orb_true_iff, startswith_spec, IH. split.
    + intros [[r Hr] | (l & r & Hr)].
      * by exists "", r.
      * exists (String b l), r. by rewrite append_String, <- Hr.
    + intros ([|c l] & r & Hr).
      * left. by exists r.
      * right. exists l, r. rewrite append_String in Hr. congruence.
Qed.

Lemma occurs_in_app_l sub p h : occurs_in sub p -> occurs_in sub (p +:+ h).
Proof.
  intros (l & r & ->). exists l, (r +:+ h).
  by rewrite !string_app_assoc.
Qed.

(** ** Running the monad *)

(** Open the binds and handlers of a statement so that it reads as a
    function of the world. *)
Ltac run_steps := unfold try_except, lift_http, mbind, M_bind.

(** ** The fetcher *)

Lemma download_file_run E url w :
  download_file E url w =
    (Return (fetched E url),
     match fetch_error E url with
     | Some e => {| files := files w; stdout := stdout w ++ [diagnostic e] |}
     | None => w
     end).
Proof.
  unfold download_file, fetched, fetch_error. run_steps.
  destruct (httpx_get (server E) url true) as [e|r]; [done|].
  unfold raise_for_status.
  by destruct (is_success (response_reply r)).
Qed.

Lemma fetched_None_iff E url : fetched E url = None <-> is_Some (fetch_error E url).
Proof.
  unfold fetched, fetch_error.
  destruct (httpx_get (server E) url true) as [e|r].
  - split; eauto.
  - destruct (is_success (response_reply r)); split; eauto.
    + intros; discriminate.
    + by intros [? ?].
Qed.







(** ** The writer *)

Lemma write_file_run E content p w :
  write_file E content p w =
    match disk E (files w) (Path_str p) content with
    | IoOk =>
        (Return ("Completed write to: " +:+ Path_str p),
         {| files := <[Path_str p := content]> (files w); stdout := stdout w |})
    | OpenFails msg =>
        (Return ("Failed to write to: " +:+ Path_str p),
         {| files := files w;
            stdout := stdout w ++ ["Cannot write to file: " +:+ msg] |})
    | WriteFails written msg =>
        (Return ("Failed to write to: " +:+ Path_str p),
         {| files := <[Path_str p := take written content]> (files w);
            stdout := stdout w ++ ["Cannot write to file: " +:+ msg] |})
    end.
Proof.
  unfold write_file, open_wb_write. run_steps.
  by destruct (disk E (files w) (Path_str p) content).
Qed.

(** The writer reports completion only for a write that went through. *)
Lemma write_file_completed_iff E content p w :
  is_completed (match fst (write_file E content p w) with
                | Return s => s | Raise _ => "" end) = true
  <-> disk E (files w) (Path_str p) content = IoOk.
Proof.
  rewrite write_file_run.
  destruct (disk E (files w) (Path_str p) content); simpl; split; done.
Qed.

(** C6: when the path can be written, [write_file] leaves there a file with
    exactly the bytes it was given, whatever was or was not there before,
    touches no other file, and returns the completion status, which
    contains the path. *)
Theorem write_file_round_trip E content p w :
  disk E (files w) (Path_str p) content = IoOk ->
  exists w',
    write_file E content p w = (Return ("Completed write to: " +:+ Path_str p), w')
    /\ files w' !! Path_str p = Some content
    /\ (forall q, q ≠ Path_str p -> files w' !! q = files w !! q)
    /\ stdout w' = stdout w
    /\ occurs_in (Path_str p) ("Completed write to: " +:+ Path_str p).
Proof.
  intros Hok. rewrite write_file_run, Hok. eexists. split; [done|]. simpl.
  split; [by rewrite lookup_insert_eq|].
  split; [intros q Hq; by rewrite lookup_insert_ne|].
  split; [done|].
  exists "Completed write to: ", "". by rewrite string_app_nil_r.
Qed.

Lemma write_file_round_trip_witness :
  exists w',
    write_file sample_env [x33] (Path_of "out/cat_2.csv")
      {| files := {[ "out/cat_2.csv" := [x30; x30] ]}; stdout := [] |}
      = (Return "Completed write to: out/cat_2.csv", w')
    /\ files w' !! "out/cat_2.csv" = Some [x33].
Proof.
  destruct (write_file_round_trip sample_env [x33] (Path_of "out/cat_2.csv")
              {| files := {[ "out/cat_2.csv" := [x30; x30] ]}; stdout := [] |}
              eq_refl) as (w' & Hrun & Hfile & _).
  exists w'. split; [exact Hrun | exact Hfile].
Defined.

(** ** The collector *)

Lemma node_forall_ind (P : node -> Prop) :
  (forall t a cs, Forall P cs -> P (Tag t a cs)) ->
  (forall s, P (NavigableString s)) ->
  forall n, P n.
Proof.
  intros HTag HStr. fix IH 1. intros [t a cs|s]; [|apply HStr].
  apply HTag. induction cs as [|c cs IHcs]; constructor; [apply IH | apply IHcs].
Qed.

Lemma truthy_str_true s : truthy_str s = true <-> s ≠ "".
Proof. destruct s; simpl; split; done. Qed.

(** One node of the document: the comprehension keeps it exactly when it is
    an anchor with a non-empty [href]. *)
Lemma link_of_anchor prefix c :
  omap (link_of prefix) (List.filter (is_tag_named "a") [c])
  = map (fun h => prefix +:+ h) (option_list (anchor_href c)).
Proof.
  destruct c as [t a cs|s]; [|done]. simpl.
  destruct (String.eqb_spec t "a") as [->|Hne].
  - rewrite decide_True by done. simpl. unfold link_of. simpl.
    destruct (a !! "href") as [h|]; [|done]. simpl.
    destruct h; [by rewrite decide_True | by rewrite decide_False].
  - by rewrite decide_False.
Qed.

Lemma find_all_anchor_hrefs prefix soup :
  omap (link_of prefix) (find_all "a" soup)
  = map (fun h => prefix +:+ h) (anchor_hrefs soup).
Proof.
  unfold find_all.
  induction soup as [t a cs IH|s] using node_forall_ind; [|done]. simpl.
  induction IH as [|c cs Hc _ IHcs]; [done|].
  change (flat_map (fun c => c :: descendants c) (c :: cs))
    with ([c] ++ (descendants c ++ flat_map (fun c => c :: descendants c) cs)).
  change (flat_map (fun c => option_list (anchor_href c) ++ anchor_hrefs c)
            (c :: cs))
    with ((option_list (anchor_href c) ++ anchor_hrefs c)
          ++ flat_map (fun c => option_list (anchor_href c) ++ anchor_hrefs c) cs).
  rewrite !List.filter_app, !omap_app, !map_app.
  rewrite link_of_anchor, Hc, IHcs. by rewrite app_assoc.
Qed.

Lemma filter_kept contains l :
  kept (occurs_in contains) l (List.filter (fun i => str_in contains i) l).
Proof.
  induction l as [|x l IH]; simpl; [constructor|].
  destruct (str_in contains x) eqn:Hx.
  - apply kept_take; [by apply str_in_spec | done].
  - apply kept_skip; [|done]. rewrite <- str_in_spec. congruence.
Qed.

Lemma kept_Forall {A} (P : A -> Prop) l l' : kept P l l' -> Forall P l'.
Proof. induction 1; auto. Qed.

Lemma kept_all {A} (P : A -> Prop) l l' : kept P l l' -> Forall P l -> l' = l.
Proof.
  induction 1 as [|x l l' Hx _ IH|x l l' Hx _ IH]; intros Hall; [done|..].
  - f_equal. apply IH. by inversion Hall.
  - by inversion Hall.
Qed.

Lemma kept_incl {A} (P : A -> Prop) l l' x : kept P l l' -> x ∈ l' -> x ∈ l.
Proof.
  induction 1; intros Hin; [done|..].
  - apply elem_of_cons in Hin as [->|Hin]; [left | right; auto].
  - right; auto.
Qed.

Lemma anchor_hrefs_nonempty n : Forall (fun h => h ≠ "") (anchor_hrefs n).
Proof.
  induction n as [t a cs IH|s] using node_forall_ind; [|constructor]. simpl.
  induction IH as [|c cs Hc _ IHcs]; simpl; [constructor|].
  rewrite !Forall_app. split_and!; [|done..].
  destruct c as [t' a' cs'|s']; simpl; [|constructor].
  case_decide; [|constructor].
  destruct (a' !! "href") as [h|]; [|constructor].
  case_decide; repeat constructor; done.
Qed.

Lemma append_nonempty (p h : string) : h ≠ "" -> p +:+ h ≠ "".
Proof. destruct p, h; done. Qed.

Lemma assemble_links_run E url contains prefix w :
  assemble_links E url contains prefix w =
    match httpx_get (server E) url false with
    | inl e => (Raise (ExHTTP e), w)
    | inr r =>
        (Return (List.filter (fun i => str_in contains i)
                   (links_on_page E (text (response_reply r))
                      (effective_prefix url prefix))), w)
    end.
Proof.
  unfold assemble_links, links_on_page. run_steps.
  destruct (httpx_get (server E) url false) as [e|r]; [done|].
  by rewrite find_all_anchor_hrefs.
Qed.

(** C3: once the listing page has been fetched, [assemble_links] returns
    the prefixed hrefs of the anchors that have a non-empty [href], in
    document order and with repetitions, less those that do not contain the
    filter; every link returned contains the filter and none is empty. *)
Theorem assemble_links_filtered_anchors E url contains prefix w r :
  httpx_get (server E) url false = inr r ->
  exists links,
    assemble_links E url contains prefix w = (Return links, w)
    /\ kept (occurs_in contains)
         (links_on_page E (text (response_reply r)) (effective_prefix url prefix))
         links
    /\ Forall (occurs_in contains) links
    /\ Forall (fun l => l ≠ "") links.
Proof.
  intros Hget. rewrite assemble_links_run, Hget. eexists. split; [done|].
  pose proof (filter_kept contains
    (links_on_page E (text (response_reply r)) (effective_prefix url prefix))) as Hk.
  split; [done|]. split; [by eapply kept_Forall|].
  apply Forall_forall. intros l Hl.
  apply (kept_incl _ _ _ _ Hk) in Hl. unfold links_on_page in Hl.
  apply list_elem_of_fmap in Hl as (h & -> & Hh).
  apply append_nonempty.
  by apply (proj1 (Forall_forall _ _) (anchor_hrefs_nonempty _)) in Hh.
Qed.

Lemma assemble_links_filtered_anchors_witness :
  exists links,
    assemble_links sample_env listing_url "cat" None empty_world
      = (Return links, empty_world)
    /\ links = ["http://files.test/a/cat_1.csv"; "http://files.test/a/cat_2.csv"]
    /\ Forall (occurs_in "cat") links.
Proof.
  destruct (assemble_links_filtered_anchors sample_env listing_url "cat" None
              empty_world _ eq_refl) as (links & Hrun & _ & Hall & _).
  exists links. split; [exact Hrun|]. split; [|exact Hall].
  vm_compute in Hrun. by injection Hrun as <-.
Defined.

(** C9: when the filter occurs in the prefix, [assemble_links] keeps every
    anchor that has a non-empty [href], whatever the [href] says: the test
    is made on the prefixed link. *)
Theorem assemble_links_filter_in_prefix E url contains prefix w r :
  httpx_get (server E) url false = inr r ->
  occurs_in contains (effective_prefix url prefix) ->
  assemble_links E url contains prefix w
    = (Return (links_on_page E (text (response_reply r))
                 (effective_prefix url prefix)), w).
Proof.
  intros Hget Hin. rewrite assemble_links_run, Hget. do 2 f_equal.
  apply (kept_all (occurs_in contains)); [apply filter_kept|].
  unfold links_on_page. apply Forall_fmap, Forall_forall. intros h _.
  by apply occurs_in_app_l.
Qed.

Lemma assemble_links_filter_in_prefix_witness :
  assemble_links sample_env listing_url "files.test" None empty_world
    = (Return ["http://files.test/a/cat_1.csv"; "http://files.test/a/dog_1.csv";
               "http://files.test/a/cat_2.csv"], empty_world).
Proof.
  refine (eq_trans
    (assemble_links_filter_in_prefix sample_env listing_url "files.test" None
       empty_world _ eq_refl _) _).
  - exists "http://", "". reflexivity.
  - reflexivity.
Defined.

(** C10: an empty prefix is no prefix: the call works with the prefix
    derived from the URL, and returns what the call without a prefix
    returns. *)
Theorem assemble_links_empty_prefix E url contains w :
  effective_prefix url (Some "")
    = urlunparse (scheme (urlparse url)) (netloc (urlparse url)) "" "" "" ""
  /\ effective_prefix url (Some "") = effective_prefix url None
  /\ assemble_links E url contains (Some "") w = assemble_links E url contains None w.
Proof. done. Qed.

Lemma send_no_answer server budget follow url detail :
  server url = NoAnswer detail ->
  send_handling_redirects server (S budget) follow url
    = inl {| error_class := TransportError; message := detail; request_url := url |}.
Proof. intros Hs. simpl. by rewrite Hs. Qed.

Lemma main_run E downloader url contains out_dir w :
  main E downloader url contains out_dir w =
    match mkdir_verdict_of E out_dir with
    | MkdirFails msg => (Raise (ExOS msg), w)
    | v =>
        let w1 :=
          match v with
          | MkdirExists _ =>
              {| files := files w;
                 stdout := stdout w ++ ["Output directory (" +:+ Path_str out_dir
                                          +:+ ") already exists."] |}
          | _ => w
          end in
        match downloader url contains out_dir w1 with
        | (Return (count, total), w2) =>
            (Return tt,
             {| files := files w2;
                stdout := (stdout w2
                  ++ [nl +:+ str_of_int count +:+ " downloads in " +:+ elapsed E
                        +:+ " seconds."])
                  ++ [nl +:+ str_of_int (total - count) +:+ " downloads failed."] |})
        | (Raise e, w2) => (Raise e, w2)
        end
    end.
Proof.
  unfold main, mkdir. run_steps.
  destruct (mkdir_verdict_of E out_dir); simpl; [| |done];
    by destruct (downloader _ _ _ _) as [[[count total]|e] w2].
Qed.

(** C5: when the request for the listing page gets no answer,
    [assemble_links] raises the transport error, [get_link_data] lets it
    through, and [main] ends in an exception without a download, a file
    written or a summary; the same failure inside [download_file] comes
    back as [None]. *)
Theorem listing_failure_propagates E url contains prefix out_dir w detail :
  server E url = NoAnswer detail ->
  let e := ExHTTP {| error_class := TransportError; message := detail;
                     request_url := url |} in
  assemble_links E url contains prefix w = (Raise e, w)
  /\ get_link_data E url contains out_dir w = (Raise e, w)
  /\ (exists e' w',
        main E (get_link_data E) url contains out_dir w = (Raise e', w')
        /\ files w' = files w
        /\ ((forall msg, mkdir_verdict_of E out_dir ≠ MkdirFails msg) -> e' = e))
  /\ (exists w', download_file E url w = (Return None, w')).
Proof.
  intros Hs e.
  assert (forall f, httpx_get (server E) url f
            = inl {| error_class := TransportError; message := detail;
                     request_url := url |}) as Hget
    by (intros f; by apply send_no_answer).
  assert (forall p w0, assemble_links E url contains p w0 = (Raise e, w0)) as Hal
    by (intros p w0; by rewrite assemble_links_run, Hget).
  assert (forall w0, get_link_data E url contains out_dir w0 = (Raise e, w0)) as Hgl
    by (intros w0; unfold get_link_data; run_steps; by rewrite Hal).
  split; [done|]. split; [done|]. split.
  - rewrite main_run. destruct (mkdir_verdict_of E out_dir) as [|msg|msg] eqn:Hm.
    + cbv beta iota zeta. rewrite Hgl. by eexists _, _.
    + cbv beta iota zeta. rewrite Hgl. by eexists _, _.
    + eexists _, _. split; [done|]. split; [done|]. intros Hne. by destruct (Hne msg).
  - rewrite download_file_run. unfold fetched. rewrite Hget. by eexists.
Qed.

Lemma listing_failure_propagates_witness :
  get_link_data sample_env "http://files.test/gone/" "cat" (Path_of "out") empty_world
    = (Raise (ExHTTP {| error_class := TransportError;
                        message := "[Errno 111] Connection refused";
                        request_url := "http://files.test/gone/" |}), empty_world).
Proof.
  exact (proj1 (proj2 (listing_failure_propagates sample_env
    "http://files.test/gone/" "cat" None (Path_of "out") empty_world _ eq_refl))).
Defined.

(** ** The derived prefix *)



Lemma lower_scheme_char c :
  is_scheme_char c = true -> is_scheme_char (lower_char c) = true.
Proof. destruct c as [[] [] [] [] [] [] [] []]; vm_compute; congruence. Qed.







Lemma truthy_lower sch : truthy_str (lower sch) = truthy_str sch.
Proof. by destruct sch. Qed.





(** ** The orchestrator *)

Lemma lines_where_app p (a b : list string) :
  lines_where p (a ++ b) = (lines_where p a + lines_where p b)%Z.
Proof. unfold lines_where. rewrite List.filter_app, length_app. lia. Qed.


(** One turn of the loop: the counter moves by one exactly for a non-empty
    download, and then exactly one writer status is printed. *)
Lemma fetch_and_store_step E out_dir link fname fcount w :
  let b := if truthy_opt truthy_bytes (fetched E link) then 1%Z else 0%Z in
  exists w' new,
    fetch_and_store E out_dir (link, fname) fcount w = (Return (fcount + b)%Z, w')
    /\ stdout w' = stdout w ++ new
    /\ (lines_where is_completed new + lines_where is_failed_write new)%Z = b.
Proof.
  unfold fetch_and_store. run_steps. rewrite download_file_run.
  destruct (truthy_opt truthy_bytes (fetched E link)) eqn:Hdl; cbv zeta.
  - assert (fetch_error E link = None) as ->.
    { destruct (fetch_error E link) eqn:He; [|done].
      assert (fetched E link = None) as Hn by (apply fetched_None_iff; eauto).
      by rewrite Hn in Hdl. }
    rewrite write_file_run.
    destruct (disk E (files w) _ _) as [|msg|k msg]; unfold print; simpl.
    + eexists _, [_]. split; [done|]. split; [done|]. reflexivity.
    + eexists _, [_; _]. split; [done|]. split; [by rewrite <- app_assoc|].
      reflexivity.
    + eexists _, [_; _]. split; [done|]. split; [by rewrite <- app_assoc|].
      reflexivity.
  - rewrite Z.add_0_r. destruct (fetch_error E link) as [e|].
    + eexists _, [_]. split; [done|]. split; [done|]. reflexivity.
    + eexists _, []. split; [done|]. split; [by rewrite app_nil_r | done].
Qed.

Lemma for_each_fetch_and_store E out_dir links fcount w :
  exists w' new,
    for_each (zip links (map (fun i => name (Path_of i)) links))
      (fetch_and_store E out_dir) fcount w
      = (Return (fcount + fetch_count E links)%Z, w')
    /\ stdout w' = stdout w ++ new
    /\ (lines_where is_completed new + lines_where is_failed_write new)%Z
       = fetch_count E links.
Proof.
  revert fcount w. induction links as [|link links IH]; intros fcount w.
  - exists w, []. unfold fetch_count. simpl.
    split; [by rewrite Z.add_0_r|]. by rewrite app_nil_r.
  - destruct (fetch_and_store_step E out_dir link (name (Path_of link)) fcount w)
      as (w1 & new1 & Hstep & Hout1 & Hn1).
    destruct (IH (fcount
        + (if truthy_opt truthy_bytes (fetched E link) then 1 else 0))%Z w1)
      as (w2 & new2 & Hrest & Hout2 & Hn2).
    exists w2, (new1 ++ new2).
    assert (fetch_count E (link :: links)
            = ((if truthy_opt truthy_bytes (fetched E link) then 1 else 0)
               + fetch_count E links)%Z) as Hcount.
    { unfold fetch_count. simpl.
      destruct (truthy_opt truthy_bytes (fetched E link)); simpl length; lia. }
    split; [|split].
    + change (zip (link :: links) (map (fun i => name (Path_of i)) (link :: links)))
        with ((link, name (Path_of link))
              :: zip links (map (fun i => name (Path_of i)) links)).
      change (for_each (?x :: ?xs) ?body ?acc)
        with (acc' ← body x acc; for_each xs body acc').
      unfold mbind at 1, M_bind at 1. rewrite Hstep, Hrest, Hcount.
      do 2 f_equal. lia.
    + by rewrite Hout2, Hout1, app_assoc.
    + rewrite !lines_where_app, Hcount. lia.
Qed.

Lemma get_link_data_run E url contains out_dir w r :
  httpx_get (server E) url false = inr r ->
  let links := List.filter (fun i => str_in contains i)
                 (links_on_page E (text (response_reply r))
                    (effective_prefix url None)) in
  exists w' new,
    get_link_data E url contains out_dir w
      = (Return (fetch_count E links, Z.of_nat (length links)), w')
    /\ stdout w' = stdout w ++ new
    /\ (lines_where is_completed new + lines_where is_failed_write new)%Z
       = fetch_count E links.
Proof.
  intros Hget links. unfold get_link_data.
  unfold mbind at 1, M_bind at 1. rewrite assemble_links_run, Hget. fold links.
  destruct (for_each_fetch_and_store E out_dir links 0 w)
    as (w' & new & Hloop & Hout & Hn).
  exists w', new. run_steps. rewrite Hloop. by rewrite Z.add_0_l.
Qed.


(** On the sample site the first file is fetched, the disk refuses it, and
    it is counted all the same. *)
Example failed_write_is_counted :
  fetch_and_store sample_env (Path_of "out")
    ("http://files.test/a/cat_1.csv", "cat_1.csv") 0 empty_world
  = (Return 1%Z,
     {| files := ∅;
        stdout := ["Cannot write to file: [Errno 13] Permission denied: 'out/cat_1.csv'";
                   "Failed to write to: out/cat_1.csv"] |}).
Proof. reflexivity. Qed.

(** C8: a download that succeeds with no bytes goes the way of a failed
    one: the turn writes no file and leaves the counter alone (it does not
    even print), as a turn whose download failed leaves files and counter
    alone. *)
Theorem empty_body_is_skipped E out_dir link fname fcount w :
  fetched E link = Some [] ->
  download_file E link w = (Return (Some []), w)
  /\ fetch_and_store E out_dir (link, fname) fcount w = (Return fcount, w)
  /\ (forall link' fname', fetched E link' = None ->
        exists w',
          fetch_and_store E out_dir (link', fname') fcount w = (Return fcount, w')
          /\ files w' = files w).
Proof.
  intros Hempty.
  assert (fetch_error E link = None) as Hnoerr.
  { destruct (fetch_error E link) eqn:He; [|done].
    assert (fetched E link = None) as Hn by (apply fetched_None_iff; eauto).
    congruence. }
  split; [|split].
  - by rewrite download_file_run, Hempty, Hnoerr.
  - unfold fetch_and_store. run_steps.
    by rewrite download_file_run, Hempty, Hnoerr.
  - intros link' fname' Hnone.
    unfold fetch_and_store. run_steps. rewrite download_file_run, Hnone. simpl.
    eexists. split; [done|]. by destruct (fetch_error E link').
Qed.

Lemma empty_body_is_skipped_witness :
  fetch_and_store sample_env (Path_of "out")
    ("http://files.test/a/empty.csv", "empty.csv") 0 empty_world
  = (Return 0%Z, empty_world).
Proof.
  exact (proj1 (proj2 (empty_body_is_skipped sample_env (Path_of "out")
    "http://files.test/a/empty.csv" "empty.csv" 0 empty_world eq_refl))).
Defined.




(** * Further properties of the script *)

(** ** The writer when the disk refuses *)

(** X1: whatever goes wrong with the disk, [write_file] raises nothing: it
    returns the failure status, which contains the path, prints one line
    with the error, and touches no other file; when the file could not even
    be opened, no file changes at all. *)
Theorem write_file_failure_is_reported E content p w :
  disk E (files w) (Path_str p) content ≠ IoOk ->
  exists msg w',
    write_file E content p w = (Return ("Failed to write to: " +:+ Path_str p), w')
    /\ stdout w' = stdout w ++ ["Cannot write to file: " +:+ msg]
    /\ (forall q, q ≠ Path_str p -> files w' !! q = files w !! q)
    /\ (disk E (files w) (Path_str p) content = OpenFails msg -> files w' = files w)
    /\ occurs_in (Path_str p) ("Failed to write to: " +:+ Path_str p).
Proof.
  intros Hbad. rewrite write_file_run.
  assert (occurs_in (Path_str p) ("Failed to write to: " +:+ Path_str p)) as Hocc.
  { exists "Failed to write to: ", "". by rewrite string_app_nil_r. }
  destruct (disk E (files w) (Path_str p) content) as [|msg|k msg]; [done|..];
    exists msg; eexists; (split; [done|]); simpl; (split; [done|]).
  - done.
  - split; [intros q Hq; by rewrite lookup_insert_ne|]. done.
Qed.

Lemma write_file_failure_is_reported_witness :
  exists msg w',
    write_file sample_env [x31] (Path_of "out/cat_1.csv") empty_world
      = (Return "Failed to write to: out/cat_1.csv", w')
    /\ stdout w' = [] ++ ["Cannot write to file: " +:+ msg]
    /\ files w' = ∅.
Proof.
  destruct (write_file_failure_is_reported sample_env [x31] (Path_of "out/cat_1.csv")
              empty_world) as (msg & w' & Hrun & Hout & _).
  { discriminate. }
  exists msg, w'. split; [exact Hrun|]. split; [exact Hout|].
  rewrite write_file_run in Hrun. simpl in Hrun. by injection Hrun as <-.
Defined.

(** ** The fetcher when all goes well *)


(** X3: a download follows a redirect: when the URL answers with a redirect
    to a page that answers 2xx, the bytes returned are the body of that
    page and nothing is printed. *)
Theorem download_file_follows_redirect E url next r r2 w :
  server E url = Answer r -> redirect_target r = Some next ->
  server E next = Answer r2 -> redirect_target r2 = None ->
  is_success r2 = true ->
  download_file E url w = (Return (Some (content r2)), w).
Proof.
  intros Hs Hr Hs2 Hr2 Hok.
  assert (httpx_get (server E) url true
          = inr {| response_reply := r2; response_url := next |}) as Hget.
  { unfold httpx_get. simpl. by rewrite Hs, Hr, Hs2, Hr2. }
  rewrite download_file_run. unfold fetched, fetch_error. rewrite Hget. simpl.
  by rewrite Hok.
Qed.

Lemma download_file_follows_redirect_witness :
  download_file mirror_env "http://mirror.test/moved.csv" empty_world
    = (Return (Some (list_byte_of_string "B")), empty_world).
Proof.
  exact (download_file_follows_redirect mirror_env "http://mirror.test/moved.csv"
           "http://mirror.test/b/x.csv" _ _ empty_world
           eq_refl eq_refl eq_refl eq_refl eq_refl).
Defined.

(** ** The collector: status, prefix and filter *)

Lemma httpx_get_no_follow server url rp :
  server url = Answer rp ->
  httpx_get server url false = inr {| response_reply := rp; response_url := url |}.
Proof.
  intros Hs. unfold httpx_get. simpl. rewrite Hs. by destruct (redirect_target rp).
Qed.

(** X4: the listing request neither checks the status nor follows a
    redirect: whatever reply the listing URL gets, 404 and 302 included,
    its own body is parsed and the links on it are returned. *)
Theorem assemble_links_ignores_status E url contains prefix w rp :
  server E url = Answer rp ->
  assemble_links E url contains prefix w
    = (Return (List.filter (fun i => str_in contains i)
                 (links_on_page E (text rp) (effective_prefix url prefix))), w).
Proof.
  intros Hs. by rewrite assemble_links_run, (httpx_get_no_follow _ _ _ Hs).
Qed.

Lemma assemble_links_ignores_status_witness :
  assemble_links mirror_env "http://mirror.test/list" "dog" None empty_world
    = (Return ["http://mirror.test/a/dog_1.csv"], empty_world).
Proof.
  exact (assemble_links_ignores_status mirror_env "http://mirror.test/list" "dog"
           None empty_world _ eq_refl).
Defined.

Lemma startswith_app (p h : string) : startswith (p +:+ h) p = true.
Proof. apply startswith_spec. by exists h. Qed.

Lemma string_length_app (a b : string) :
  String.length (a +:+ b) = (String.length a + String.length b)%nat.
Proof.
  induction a as [|x a IH]; [done|]. rewrite append_String. simpl. by rewrite IH.
Qed.

Lemma links_on_page_prefixed E page prefix :
  Forall (fun l => startswith l prefix = true
                   /\ (String.length prefix < String.length l)%nat)
    (links_on_page E page prefix).
Proof.
  unfold links_on_page. apply Forall_fmap, Forall_forall. intros h Hh. simpl.
  split; [apply startswith_app|]. rewrite string_length_app.
  apply (proj1 (Forall_forall _ _) (anchor_hrefs_nonempty _)) in Hh.
  destruct h; [done|]. simpl. lia.
Qed.

(** X5: every link returned starts with the prefix the call works with and
    is longer than it, so an href that is already absolute is prefixed like
    any other; a non-empty prefix passed in is that prefix, whatever the
    URL. *)
Theorem assemble_links_prefixed E url contains prefix w links w' :
  assemble_links E url contains prefix w = (Return links, w') ->
  Forall (fun l => startswith l (effective_prefix url prefix) = true
                   /\ (String.length (effective_prefix url prefix)
                       < String.length l)%nat) links
  /\ (forall p, prefix = Some p -> p ≠ "" -> effective_prefix url prefix = p).
Proof.
  intros Hrun. split.
  - rewrite assemble_links_run in Hrun.
    destruct (httpx_get (server E) url false) as [e|r]; [done|].
    injection Hrun as <- _. apply Forall_forall. intros l Hl.
    apply list_elem_of_In, List.filter_In in Hl as [Hl _].
    apply list_elem_of_In in Hl.
    by apply (proj1 (Forall_forall _ _) (links_on_page_prefixed _ _ _)) in Hl.
  - intros p -> Hp. unfold effective_prefix. by destruct p.
Qed.

Lemma assemble_links_prefixed_witness :
  Forall (fun l => startswith l "ftp://other.test" = true
                   /\ (String.length "ftp://other.test" < String.length l)%nat)
    ["ftp://other.test/a/cat_1.csv"; "ftp://other.test/a/cat_2.csv"].
Proof.
  exact (proj1 (assemble_links_prefixed sample_env listing_url "cat"
                  (Some "ftp://other.test") empty_world _ empty_world eq_refl)).
Defined.

(** X6: the empty filter filters nothing: every anchor with a non-empty
    [href] is returned. *)
Theorem assemble_links_empty_filter E url prefix w r :
  httpx_get (server E) url false = inr r ->
  assemble_links E url "" prefix w
    = (Return (links_on_page E (text (response_reply r))
                 (effective_prefix url prefix)), w).
Proof.
  intros Hget. rewrite assemble_links_run, Hget. do 2 f_equal.
  apply (kept_all (occurs_in "")); [apply filter_kept|].
  apply Forall_forall. intros l _. by exists "", l.
Qed.

Lemma assemble_links_empty_filter_witness :
  assemble_links sample_env listing_url "" None empty_world
    = (Return ["http://files.test/a/cat_1.csv"; "http://files.test/a/dog_1.csv";
               "http://files.test/a/cat_2.csv"], empty_world).
Proof.
  exact (assemble_links_empty_filter sample_env listing_url None empty_world _ eq_refl).
Defined.

Lemma occurs_in_trans a b c : occurs_in a b -> occurs_in b c -> occurs_in a c.
Proof.
  intros (l1 & r1 & ->) (l2 & r2 & ->). exists (l2 +:+ l1), (r1 +:+ r2).
  by rewrite !string_app_assoc.
Qed.

Lemma filter_narrowed c1 c2 (l : list string) :
  occurs_in c1 c2 ->
  List.filter (fun i => str_in c2 i) (List.filter (fun i => str_in c1 i) l)
  = List.filter (fun i => str_in c2 i) l.
Proof.
  intros Hsub. induction l as [|x l IH]; [done|]. simpl.
  destruct (str_in c2 x) eqn:H2.
  - assert (str_in c1 x = true) as ->.
    { apply str_in_spec. eapply occurs_in_trans; [exact Hsub|]. by apply str_in_spec. }
    simpl. by rewrite H2, IH.
  - destruct (str_in c1 x); [|done]. simpl. by rewrite H2.
Qed.

(** X7: narrowing the filter narrows the result: when one filter occurs in
    another, the links for the longer one are the links for the shorter one
    filtered once more, in the same order. *)
Theorem assemble_links_narrowed E url c1 c2 prefix w links1 links2 w1 w2 :
  occurs_in c1 c2 ->
  assemble_links E url c1 prefix w = (Return links1, w1) ->
  assemble_links E url c2 prefix w = (Return links2, w2) ->
  links2 = List.filter (fun i => str_in c2 i) links1
  /\ links2 `sublist_of` links1.
Proof.
  intros Hsub H1 H2. rewrite assemble_links_run in H1, H2.
  destruct (httpx_get (server E) url false) as [e|r]; [done|].
  injection H1 as <- _. injection H2 as <- _.
  rewrite (filter_narrowed c1 c2) by done. split; [done|].
  rewrite <- (filter_narrowed c1 c2) by done.
  generalize (List.filter (fun i => str_in c1 i)
                (links_on_page E (text (response_reply r))
                   (effective_prefix url prefix))).
  intros l. induction l as [|x l IH]; simpl; [constructor|].
  destruct (str_in c2 x); by constructor.
Qed.

Lemma assemble_links_narrowed_witness :
  ["http://files.test/a/cat_2.csv"]
  = List.filter (fun i => str_in "cat_2" i)
      ["http://files.test/a/cat_1.csv"; "http://files.test/a/cat_2.csv"].
Proof.
  refine (proj1 (assemble_links_narrowed sample_env listing_url "cat" "cat_2" None
                   empty_world _ _ empty_world empty_world _ eq_refl eq_refl)).
  by exists "", "_2".
Defined.

(** ** Where a link is stored *)

Lemma split_on_no_slash s : Forall (fun c => no_slash c = true) (split_on "/" s).
Proof.
  induction s as [|x s IH]; simpl; [by repeat constructor|].
  destruct (Ascii.eqb x "/") eqn:Hx; [by constructor|].
  destruct (split_on "/" s) as [|c cs]; [repeat constructor|]; simpl.
  - unfold no_slash. simpl. by rewrite Hx.
  - inversion IH as [|? ? Hc Hcs]; subst. constructor; [|done].
    unfold no_slash in *. simpl. by rewrite Hx.
Qed.

Lemma split_on_single s : no_slash s = true -> split_on "/" s = [s].
Proof.
  induction s as [|x s IH]; [done|]. unfold no_slash in *. simpl.
  intros [Hx Hs]%andb_true_iff. apply negb_true_iff in Hx. rewrite Hx.
  by rewrite (IH Hs).
Qed.

Lemma last_cases {A} (l : list A) d : l = [] /\ List.last l d = d \/ In (List.last l d) l.
Proof.
  induction l as [|x l IH]; [by left|]. right.
  destruct l as [|y l]; [by left|].
  destruct IH as [[? _]|IH]; [done|]. by right.
Qed.

(** The name of a path is empty or one component: no slash in it, and not
    a single dot. *)
Lemma name_component s :
  name (Path_of s) = ""
  \/ no_slash (name (Path_of s)) = true /\ keep_part (name (Path_of s)) = true.
Proof.
  unfold name. simpl.
  destruct (last_cases (List.filter keep_part (split_on "/" s)) "") as [[_ ->]|Hin];
    [by left|].
  right. apply List.filter_In in Hin as [Hin Hkeep]. split; [|done].
  apply list_elem_of_In in Hin.
  by apply (proj1 (Forall_forall _ _) (split_on_no_slash s)) in Hin.
Qed.

Lemma startswith_cons x (c : string) a (r : string) :
  startswith (String x c) (String a r)
  = if Ascii.eqb a x then startswith c r else false.
Proof. reflexivity. Qed.

Lemma Path_of_component c :
  no_slash c = true -> keep_part c = true ->
  Path_of c = {| root := ""; parts := [c] |}.
Proof.
  intros Hns Hkeep. unfold Path_of. rewrite (split_on_single c Hns). f_equal.
  - destruct c as [|x c]; [done|]. unfold no_slash in Hns. simpl in Hns.
    apply andb_true_iff in Hns as [Hx _]. apply negb_true_iff in Hx.
    by rewrite !startswith_cons, (Ascii.eqb_sym "/" x), Hx.
  - cbn [List.filter]. by rewrite Hkeep.
Qed.

(** X8: a link is stored in the output directory or right under it: the
    stored name is the last component of the link, it holds no slash, and
    the path is the output directory with that one component added (the
    output directory itself for a link without components). *)
Theorem out_path_is_child out_dir link :
  no_slash (name (Path_of link)) = true
  /\ (name (Path_of link) = "" -> out_path_of out_dir link = out_dir)
  /\ (name (Path_of link) ≠ "" ->
      out_path_of out_dir link
      = {| root := root out_dir; parts := parts out_dir ++ [name (Path_of link)] |}).
Proof.
  unfold out_path_of.
  destruct (name_component link) as [Hempty|[Hns Hkeep]].
  - rewrite Hempty. split; [done|]. split; [|done]. intros _.
    unfold joinpath. simpl. destruct out_dir as [r ps]. simpl. by rewrite app_nil_r.
  - split; [done|]. split.
    + intros Hempty. rewrite Hempty in Hkeep. done.
    + intros _. unfold joinpath. by rewrite (Path_of_component _ Hns Hkeep).
Qed.

(** ** A turn of the loop and the files *)

Lemma nonempty_truthy (b : bytes) : b ≠ [] -> truthy_bytes b = true.
Proof. by destruct b. Qed.

Lemma fetched_no_error E url b : fetched E url = Some b -> fetch_error E url = None.
Proof.
  intros Hb. destruct (fetch_error E url) eqn:He; [|done].
  assert (fetched E url = None) by (apply fetched_None_iff; eauto). congruence.
Qed.

Lemma fetch_and_store_ok_run E out_dir link fname fcount w b :
  fetched E link = Some b -> b ≠ [] ->
  disk E (files w) (Path_str (joinpath out_dir fname)) b = IoOk ->
  fetch_and_store E out_dir (link, fname) fcount w
  = (Return (fcount + 1)%Z,
     {| files := <[Path_str (joinpath out_dir fname) := b]> (files w);
        stdout := stdout w
                  ++ ["Completed write to: " +:+ Path_str (joinpath out_dir fname)] |}).
Proof.
  intros Hb Hne Hdisk. unfold fetch_and_store. run_steps.
  rewrite download_file_run, Hb, (fetched_no_error _ _ _ Hb). simpl.
  rewrite (nonempty_truthy b Hne), write_file_run. simpl. by rewrite Hdisk.
Qed.

Lemma for_each_cons {A S} (x : A) xs (body : A -> S -> M S) acc w :
  for_each (x :: xs) body acc w
  = match body x acc w with
    | (Return a, w') => for_each xs body a w'
    | (Raise e, w') => (Raise e, w')
    end.
Proof. reflexivity. Qed.

Lemma fetch_and_store_frame E out_dir link fname fcount w v w' q :
  fetch_and_store E out_dir (link, fname) fcount w = (v, w') ->
  q ≠ Path_str (joinpath out_dir fname) ->
  files w' !! q = files w !! q.
Proof.
  unfold fetch_and_store. run_steps. rewrite download_file_run.
  destruct (truthy_opt truthy_bytes (fetched E link)).
  - rewrite write_file_run.
    destruct (disk E _ _ _); unfold print; simpl; intros [= _ <-] Hq; simpl;
      destruct (fetch_error E link); simpl; by rewrite ?lookup_insert_ne.
  - intros [= _ <-] _. by destruct (fetch_error E link).
Qed.

Lemma for_each_frame E out_dir links fcount w v w' q :
  for_each (zip links (map (fun i => name (Path_of i)) links))
    (fetch_and_store E out_dir) fcount w = (v, w') ->
  (forall link, link ∈ links -> q ≠ Path_str (out_path_of out_dir link)) ->
  files w' !! q = files w !! q.
Proof.
  revert fcount w. induction links as [|link links IH]; intros fcount w Hrun Hq.
  - by injection Hrun as _ <-.
  - change (zip (link :: links) (map (fun i => name (Path_of i)) (link :: links)))
      with ((link, name (Path_of link))
            :: zip links (map (fun i => name (Path_of i)) links)) in Hrun.
    change (for_each (?x :: ?xs) ?body ?acc)
      with (acc' ← body x acc; for_each xs body acc') in Hrun.
    unfold mbind at 1, M_bind at 1 in Hrun.
    destruct (fetch_and_store E out_dir (link, name (Path_of link)) fcount w)
      as [[c1|e] w1] eqn:Hstep.
    + rewrite (IH _ _ Hrun) by (intros l Hl; apply Hq; by right).
      eapply fetch_and_store_frame; [exact Hstep|]. apply Hq. by left.
    + injection Hrun as _ <-.
      eapply fetch_and_store_frame; [exact Hstep|]. apply Hq. by left.
Qed.

(** X9: a turn with a non-empty download and a disk that takes the write
    stores exactly the downloaded bytes at the path of the link, prints the
    completion status and counts one. *)
Theorem fetch_and_store_round_trip E out_dir link fname fcount w b :
  fetched E link = Some b -> b ≠ [] ->
  disk E (files w) (Path_str (joinpath out_dir fname)) b = IoOk ->
  exists w',
    fetch_and_store E out_dir (link, fname) fcount w = (Return (fcount + 1)%Z, w')
    /\ files w' !! Path_str (joinpath out_dir fname) = Some b
    /\ stdout w' = stdout w
                   ++ ["Completed write to: " +:+ Path_str (joinpath out_dir fname)].
Proof.
  intros Hb Hne Hdisk.
  rewrite (fetch_and_store_ok_run _ _ _ _ _ _ _ Hb Hne Hdisk).
  eexists. split; [done|]. simpl. by rewrite lookup_insert_eq.
Qed.

Lemma fetch_and_store_round_trip_witness :
  exists w',
    fetch_and_store sample_env (Path_of "out")
      ("http://files.test/a/cat_2.csv", "cat_2.csv") 1 empty_world = (Return 2%Z, w')
    /\ files w' !! "out/cat_2.csv" = Some (list_byte_of_string "3").
Proof.
  destruct (fetch_and_store_round_trip sample_env (Path_of "out")
              "http://files.test/a/cat_2.csv" "cat_2.csv" 1 empty_world
              (list_byte_of_string "3") eq_refl) as (w' & Hrun & Hfile & _).
  - discriminate.
  - reflexivity.
  - exists w'. split; [exact Hrun | exact Hfile].
Defined.

(** X10: two links with the same last component are stored at the same
    path: both are counted, and the file holds the bytes of the second. *)
Theorem same_name_overwrites E out_dir l1 l2 b1 b2 w :
  name (Path_of l1) = name (Path_of l2) ->
  fetched E l1 = Some b1 -> b1 ≠ [] ->
  fetched E l2 = Some b2 -> b2 ≠ [] ->
  (forall fs c, disk E fs (Path_str (out_path_of out_dir l1)) c = IoOk) ->
  exists w',
    for_each (zip [l1; l2] (map (fun i => name (Path_of i)) [l1; l2]))
      (fetch_and_store E out_dir) 0%Z w = (Return 2%Z, w')
    /\ out_path_of out_dir l1 = out_path_of out_dir l2
    /\ files w' !! Path_str (out_path_of out_dir l1) = Some b2.
Proof.
  intros Hname Hb1 Hne1 Hb2 Hne2 Hdisk. unfold out_path_of in *.
  change (zip [l1; l2] (map (fun i => name (Path_of i)) [l1; l2]))
    with [(l1, name (Path_of l1)); (l2, name (Path_of l2))].
  rewrite <- Hname, for_each_cons.
  rewrite (fetch_and_store_ok_run _ _ _ _ _ _ _ Hb1 Hne1 (Hdisk _ _)), for_each_cons.
  rewrite (fetch_and_store_ok_run _ _ _ _ _ _ _ Hb2 Hne2 (Hdisk _ _)).
  eexists. split; [done|]. split; [done|]. simpl. by rewrite lookup_insert_eq.
Qed.

Lemma same_name_overwrites_witness :
  exists w',
    for_each (zip ["http://mirror.test/a/x.csv"; "http://mirror.test/b/x.csv"]
                (map (fun i => name (Path_of i))
                   ["http://mirror.test/a/x.csv"; "http://mirror.test/b/x.csv"]))
      (fetch_and_store mirror_env (Path_of "out")) 0%Z empty_world = (Return 2%Z, w')
    /\ files w' !! "out/x.csv" = Some (list_byte_of_string "B").
Proof.
  destruct (same_name_overwrites mirror_env (Path_of "out")
              "http://mirror.test/a/x.csv" "http://mirror.test/b/x.csv"
              (list_byte_of_string "A") (list_byte_of_string "B") empty_world
              eq_refl eq_refl) as (w' & Hrun & _ & Hfile).
  - discriminate.
  - reflexivity.
  - discriminate.
  - reflexivity.
  - exists w'. split; [exact Hrun | exact Hfile].
Defined.

(** ** The whole of [get_link_data] *)

Lemma filter_none contains (l : list string) :
  Forall (fun i => ~ occurs_in contains i) l ->
  List.filter (fun i => str_in contains i) l = [].
Proof.
  induction 1 as [|x l Hx _ IH]; [done|]. simpl.
  destruct (str_in contains x) eqn:Hin; [|done].
  by apply str_in_spec in Hin.
Qed.

(** X11: when no link on the page contains the filter there is nothing to
    do: [get_link_data] returns zero of zero, requests no file, writes
    nothing and prints nothing. *)
Theorem get_link_data_nothing_to_fetch E url contains out_dir w r :
  httpx_get (server E) url false = inr r ->
  Forall (fun l => ~ occurs_in contains l)
    (links_on_page E (text (response_reply r)) (effective_prefix url None)) ->
  get_link_data E url contains out_dir w = (Return (0, 0)%Z, w).
Proof.
  intros Hget Hnone. unfold get_link_data. run_steps.
  by rewrite assemble_links_run, Hget, (filter_none _ _ Hnone).
Qed.

Lemma get_link_data_nothing_to_fetch_witness :
  get_link_data sample_env listing_url "zebra" (Path_of "out") empty_world
    = (Return (0, 0)%Z, empty_world).
Proof.
  apply (get_link_data_nothing_to_fetch sample_env listing_url "zebra"
           (Path_of "out") empty_world _ eq_refl).
  repeat constructor; intros Hin; apply str_in_spec in Hin; discriminate Hin.
Defined.

Lemma fetch_count_bounds E links :
  (0 <= fetch_count E links <= Z.of_nat (length links))%Z.
Proof.
  unfold fetch_count. split; [lia|]. apply inj_le, List.filter_length_le.
Qed.

Lemma get_link_data_raise E url contains out_dir w e :
  httpx_get (server E) url false = inl e ->
  get_link_data E url contains out_dir w = (Raise (ExHTTP e), w).
Proof.
  intros Hget. unfold get_link_data. run_steps. by rewrite assemble_links_run, Hget.
Qed.

(** X12: whenever [get_link_data] returns, the count lies between zero and
    the total, so the number of failures [main] prints is never negative. *)
Theorem get_link_data_count_bounds E url contains out_dir w count total w' :
  get_link_data E url contains out_dir w = (Return (count, total), w') ->
  (0 <= count <= total)%Z /\ (0 <= total - count)%Z.
Proof.
  intros Hrun. destruct (httpx_get (server E) url false) as [e|r] eqn:Hget.
  - by rewrite (get_link_data_raise _ _ _ _ _ _ Hget) in Hrun.
  - destruct (get_link_data_run E url contains out_dir w r Hget)
      as (w2 & new & Hrun2 & _).
    rewrite Hrun2 in Hrun. injection Hrun as <- <- _.
    pose proof (fetch_count_bounds E
      (List.filter (fun i => str_in contains i)
         (links_on_page E (text (response_reply r)) (effective_prefix url None)))).
    lia.
Qed.

Lemma get_link_data_count_bounds_witness :
  exists count total w',
    get_link_data sample_env listing_url "cat" (Path_of "out") empty_world
      = (Return (count, total), w')
    /\ (0 <= count <= total)%Z.
Proof.
  exists 2%Z, 2%Z,
    (snd (get_link_data sample_env listing_url "cat" (Path_of "out") empty_world)).
  assert (get_link_data sample_env listing_url "cat" (Path_of "out") empty_world
          = (Return (2, 2)%Z,
             snd (get_link_data sample_env listing_url "cat" (Path_of "out")
                    empty_world))) as Hrun by reflexivity.
  split; [exact Hrun|].
  exact (proj1 (get_link_data_count_bounds sample_env listing_url "cat"
                  (Path_of "out") empty_world _ _ _ Hrun)).
Defined.

(** X13: [get_link_data] writes only where its links are stored: a path
    that is the storage path of none of the collected links holds after the
    call what it held before, however the call ends. *)
Theorem get_link_data_writes_only_outputs E url contains out_dir w v w' q :
  get_link_data E url contains out_dir w = (v, w') ->
  (forall links w1 link,
     assemble_links E url contains None w = (Return links, w1) ->
     link ∈ links -> q ≠ Path_str (out_path_of out_dir link)) ->
  files w' !! q = files w !! q.
Proof.
  intros Hrun Hq. destruct (httpx_get (server E) url false) as [e|r] eqn:Hget.
  - rewrite (get_link_data_raise _ _ _ _ _ _ Hget) in Hrun. by injection Hrun as _ <-.
  - unfold get_link_data in Hrun. unfold mbind at 1, M_bind at 1 in Hrun.
    rewrite assemble_links_run, Hget in Hrun, Hq.
    set (links := List.filter _ _) in *.
    unfold mbind, M_bind in Hrun.
    destruct (for_each _ _ _ w) as [[c|e] w2] eqn:Hloop;
      injection Hrun as _ <-;
      apply (for_each_frame _ _ _ _ _ _ _ _ Hloop);
      intros link Hl; by apply (Hq links w link).
Qed.

Lemma get_link_data_writes_only_outputs_witness :
  exists v w',
    get_link_data sample_env listing_url "cat" (Path_of "out")
      {| files := {[ "out/dog_1.csv" := [x30] ]}; stdout := [] |} = (v, w')
    /\ files w' !! "out/dog_1.csv" = Some [x30].
Proof.
  eexists _, _. split; [apply surjective_pairing|].
  refine (eq_trans (get_link_data_writes_only_outputs sample_env listing_url "cat"
            (Path_of "out") _ _ _ "out/dog_1.csv" (surjective_pairing _) _) _);
    [|reflexivity].
  intros links w1 link Hl Hin. vm_compute in Hl. injection Hl as <- _.
  apply elem_of_cons in Hin as [->|Hin]; [discriminate|].
  apply elem_of_cons in Hin as [->|Hin]; [discriminate|].
  by apply elem_of_nil in Hin.
Defined.

(** ** [main] and the output directory *)

(** X14: only [FileExistsError] is caught around [mkdir]: any other error
    of the directory ends [main], and with it the script, before the
    downloader is called: nothing is requested, written or printed, whatever
    the downloader and the site. *)
Theorem main_mkdir_failure E downloader url contains out_directory w msg :
  mkdir_verdict_of E (Path_of out_directory) = MkdirFails msg ->
  main E downloader url contains (Path_of out_directory) w = (Raise (ExOS msg), w)
  /\ run_module E (Some (url, contains, out_directory)) w = (Raise (ExOS msg), w).
Proof.
  intros Hmk.
  assert (forall d, main E d url contains (Path_of out_directory) w
                    = (Raise (ExOS msg), w)) as Hmain
    by (intros d; by rewrite main_run, Hmk).
  split; [apply Hmain|]. unfold run_module. run_steps. by rewrite Hmain.
Qed.

Lemma main_mkdir_failure_witness :
  run_module mirror_env (Some ("http://mirror.test/list", "cat", "out")) empty_world
    = (Raise (ExOS "[Errno 13] Permission denied: 'out'"), empty_world).
Proof.
  exact (proj2 (main_mkdir_failure mirror_env (get_link_data mirror_env)
                  "http://mirror.test/list" "cat" "out" empty_world _ eq_refl)).
Defined.

(** X15: an output directory that is already there costs one line and
    nothing else: the run is the run with a fresh directory, started after
    the notice has been printed. *)
Theorem main_existing_directory E E' downloader url contains out_dir w msg :
  mkdir_verdict_of E out_dir = MkdirExists msg ->
  mkdir_verdict_of E' out_dir = MkdirOk ->
  elapsed E' = elapsed E ->
  main E downloader url contains out_dir w
  = main E' downloader url contains out_dir
      {| files := files w;
         stdout := stdout w ++ ["Output directory (" +:+ Path_str out_dir
                                  +:+ ") already exists."] |}.
Proof.
  intros Hex Hok Hel. by rewrite !main_run, Hex, Hok, Hel.
Qed.

Lemma main_existing_directory_witness :
  main sample_env (get_link_data sample_env) listing_url "cat" (Path_of "out")
    empty_world
  = main fresh_dir_env (get_link_data sample_env) listing_url "cat" (Path_of "out")
      {| files := ∅; stdout := [] ++ ["Output directory (out) already exists."] |}.
Proof.
  exact (main_existing_directory sample_env fresh_dir_env (get_link_data sample_env)
           listing_url "cat" (Path_of "out") empty_world _ eq_refl eq_refl eq_refl).
Defined.

(** ** The module-level listing *)

(** X16: the listing of line 135 is requested whenever the module runs, as
    an import and after [main] as a script: when the archive gives no
    answer the import raises, and a script whose [main] has completed and
    printed its summary still ends in that exception. *)
Theorem run_module_listing_failure E w detail :
  server E url_gfd_cat = NoAnswer detail ->
  let e := ExHTTP {| error_class := TransportError; message := detail;
                     request_url := url_gfd_cat |} in
  run_module E None w = (Raise e, w)
  /\ (forall url contains out_directory w1,
        main E (get_link_data E) url contains (Path_of out_directory) w
          = (Return tt, w1) ->
        run_module E (Some (url, contains, out_directory)) w = (Raise e, w1)).
Proof.
  intros Hs e.
  assert (forall w0, assemble_links E url_gfd_cat "_Problem_" None w0 = (Raise e, w0))
    as Hal.
  { intros w0. rewrite assemble_links_run. unfold httpx_get.
    by rewrite (send_no_answer _ _ _ _ _ Hs). }
  split.
  - unfold run_module. run_steps. apply Hal.
  - intros url contains out_directory w1 Hmain. unfold run_module. run_steps.
    rewrite Hmain. apply Hal.
Qed.

Lemma run_module_listing_failure_witness :
  exists w1,
    main sample_env (get_link_data sample_env) listing_url "cat" (Path_of "out")
      empty_world = (Return tt, w1)
    /\ List.last (stdout w1) "" = nl +:+ "0 downloads failed."
    /\ run_module sample_env (Some (listing_url, "cat", "out")) empty_world
       = (Raise (ExHTTP {| error_class := TransportError;
                           message := "[Errno 111] Connection refused";
                           request_url := url_gfd_cat |}), w1).
Proof.
  exists (snd (main sample_env (get_link_data sample_env) listing_url "cat"
                 (Path_of "out") empty_world)).
  assert (main sample_env (get_link_data sample_env) listing_url "cat"
            (Path_of "out") empty_world
          = (Return tt, snd (main sample_env (get_link_data sample_env) listing_url
                               "cat" (Path_of "out") empty_world))) as Hmain
    by reflexivity.
  split; [exact Hmain|]. split; [reflexivity|].
  exact (proj2 (run_module_listing_failure sample_env empty_world _ eq_refl)
           listing_url "cat" "out" _ Hmain).
Defined.

Lemma url_gfd_cat_prefix : effective_prefix url_gfd_cat None = "https://web.archive.org".
Proof. reflexivity. Qed.

(** X17: the second [http://] inside the archive URL is part of its path:
    the prefix of the module-level listing is the archive's, so whatever
    page the archive serves, [gfd_links] holds only links that start with
    [https://web.archive.org] and contain [_Problem_], and the import
    changes nothing in the world. *)
Theorem run_module_gfd_links E w rp :
  server E url_gfd_cat = Answer rp ->
  exists gfd_links,
    run_module E None w = (Return gfd_links, w)
    /\ Forall (fun l => startswith l "https://web.archive.org" = true
                        /\ occurs_in "_Problem_" l) gfd_links.
Proof.
  intros Hs.
  change (run_module E None w) with (assemble_links E url_gfd_cat "_Problem_" None w).
  rewrite assemble_links_run, (httpx_get_no_follow _ _ _ Hs).
  eexists. split; [done|]. simpl. rewrite url_gfd_cat_prefix.
  apply Forall_forall. intros l Hl.
  apply list_elem_of_In, List.filter_In in Hl as [Hl Hin]. split.
  - apply list_elem_of_In in Hl.
    by apply (proj1 (Forall_forall _ _) (links_on_page_prefixed _ _ _)) in Hl as [? _].
  - by apply str_in_spec.
Qed.

Lemma run_module_gfd_links_witness :
  exists gfd_links,
    run_module archive_env None empty_world = (Return gfd_links, empty_world)
    /\ gfd_links
       = ["https://web.archive.org/web/20171017231511/http://math.nyu.edu/wwiki/GFD_Problem_1"].
Proof.
  destruct (run_module_gfd_links archive_env empty_world _ eq_refl)
    as (links & Hrun & _).
  exists links. split; [exact Hrun|].
  vm_compute in Hrun. by injection Hrun as <-.
Defined.

(** ** Redirect loops *)

Lemma send_self_redirect server url r budget :
  server url = Answer r -> redirect_target r = Some url ->
  send_handling_redirects server budget true url
  = inl {| error_class := TooManyRedirects;
           message := "Exceeded maximum allowed redirects.";
           request_url := url |}.
Proof.
  intros Hs Hr. induction budget as [|budget IH]; [done|].
  simpl. by rewrite Hs, Hr.
Qed.

(** X18: a URL that redirects to itself does not hang the download: the
    client gives up, and [download_file] returns [None] with a diagnostic
    that names the URL and the redirect limit. *)
Theorem download_file_redirect_loop E url r w :
  server E url = Answer r -> redirect_target r = Some url ->
  download_file E url w
  = (Return None,
     {| files := files w;
        stdout := stdout w
          ++ ["Error while requesting " +:+ URL_repr url +:+ "." +:+ nl
              +:+ "Exceeded maximum allowed redirects."] |}).
Proof.
  intros Hs Hr. rewrite download_file_run. unfold fetched, fetch_error, httpx_get.
  by rewrite (send_self_redirect _ _ _ _ Hs Hr).
Qed.

Lemma download_file_redirect_loop_witness :
  fst (download_file loop_env "http://loop.test/" empty_world) = Return None.
Proof.
  exact (f_equal fst (download_file_redirect_loop loop_env "http://loop.test/" _
                        empty_world eq_refl eq_refl)).
Defined.

(** ** Files are never removed *)

Lemma fetch_and_store_keeps_files E out_dir item fcount w v w' q :
  fetch_and_store E out_dir item fcount w = (v, w') ->
  is_Some (files w !! q) -> is_Some (files w' !! q).
Proof.
  destruct item as [link fname]. unfold fetch_and_store. run_steps.
  rewrite download_file_run.
  assert (forall (m : gmap string bytes) p c,
            is_Some (m !! q) -> is_Some (<[p := c]> m !! q)) as Hins.
  { intros m p c Hq. destruct (decide (p = q)) as [->|Hne].
    - rewrite lookup_insert_eq. eauto.
    - by rewrite lookup_insert_ne. }
  destruct (truthy_opt truthy_bytes (fetched E link)).
  - rewrite write_file_run.
    destruct (disk E _ _ _); unfold print; simpl; intros [= _ <-] Hq; simpl;
      destruct (fetch_error E link); simpl in *; auto.
  - intros [= _ <-] Hq. by destruct (fetch_error E link).
Qed.

Lemma for_each_keeps_files E out_dir items fcount w v w' q :
  for_each items (fetch_and_store E out_dir) fcount w = (v, w') ->
  is_Some (files w !! q) -> is_Some (files w' !! q).
Proof.
  revert fcount w. induction items as [|item items IH]; intros fcount w Hrun Hq.
  - by injection Hrun as _ <-.
  - rewrite for_each_cons in Hrun.
    destruct (fetch_and_store E out_dir item fcount w) as [[c|e] w1] eqn:Hstep.
    + eapply IH; [exact Hrun|]. eapply fetch_and_store_keeps_files; eauto.
    + injection Hrun as _ <-. eapply fetch_and_store_keeps_files; eauto.
Qed.

(** X19: a run removes no file: every path that holds a file when [main]
    starts with [get_link_data] holds one when it ends, whether it ends
    with the summary or with an exception. *)
Theorem main_keeps_files E url contains out_dir w v w' q :
  main E (get_link_data E) url contains out_dir w = (v, w') ->
  is_Some (files w !! q) -> is_Some (files w' !! q).
Proof.
  assert (forall w0 v0 w0',
            get_link_data E url contains out_dir w0 = (v0, w0') ->
            is_Some (files w0 !! q) -> is_Some (files w0' !! q)) as Hgl.
  { intros w0 v0 w0' Hrun Hq. unfold get_link_data in Hrun.
    unfold mbind at 1, M_bind at 1 in Hrun. rewrite assemble_links_run in Hrun.
    destruct (httpx_get (server E) url false) as [e|r];
      [by injection Hrun as _ <-|].
    unfold mbind, M_bind in Hrun.
    destruct (for_each _ _ _ w0) as [[c|e] w2] eqn:Hloop;
      injection Hrun as _ <-; eapply for_each_keeps_files; eauto. }
  rewrite main_run.
  destruct (mkdir_verdict_of E out_dir) as [|msg|msg]; cbv beta iota zeta.
  - destruct (get_link_data E url contains out_dir w) as [[[count total]|e] w2]
      eqn:Hrun; intros [= _ <-] Hq; simpl; eapply Hgl; eauto.
  - destruct (get_link_data E url contains out_dir _) as [[[count total]|e] w2]
      eqn:Hrun; intros [= _ <-] Hq; simpl; eapply (Hgl _ _ _ Hrun); eauto.
  - by intros [= _ <-].
Qed.

Lemma main_keeps_files_witness :
  is_Some (files (snd (main sample_env (get_link_data sample_env) listing_url "cat"
                         (Path_of "out")
                         {| files := {[ "out/cat_2.csv" := [x30] ]}; stdout := [] |}))
             !! "out/cat_2.csv").
Proof.
  refine (main_keeps_files sample_env listing_url "cat" (Path_of "out") _ _ _
            "out/cat_2.csv" (surjective_pairing _) _).
  by exists [x30].
Defined.
